(** * Playback controller ([useVideoPlayer]) and slide carousel ([changeImage])

    A shallow embedding of the React hook [useVideoPlayer] and of the
    [changeImage] callback of [SlideViewer.tsx].

    - JavaScript numbers are IEEE 754 binary64 values: they are Rocq's
      primitive floats, so [NaN], the two zeros and the infinities behave as
      they do in the browser.
    - [videoRef.current] is an [option]: [None] while no video element is
      mounted.
    - The hook's callbacks are closures over the [videoState] of the render
      that created them.  That captured value is an explicit first argument
      of the handlers that read it; [setVideoState] with an updater function
      acts on the state React holds, which may be newer than the captured
      one.
    - What a handler does to the outside world (method calls and property
      assignments on the element, the [onTimeUpdate] callback) is recorded
      in order in [effects].  The element is the record of the properties
      the hook reads and assigns; an assignment stores the value it is
      given, so [effects] and the record show what the hook hands over, not
      what a browser would then make of it.  The promises of [play] and of
      the fullscreen requests settle after the handler has returned and are
      not followed.
    - The slide viewer is its four state cells and a step function over
      what the user can do; the time label of the player goes through a
      model of [Date] that covers [toISOString] and its [RangeError]. *)

From Stdlib Require Import ZArith List Bool Lia String Ascii.
From Stdlib Require Import Floats.
Import ListNotations.

Set Implicit Arguments.

(** ** JavaScript numbers *)

Module Js.

Definition number := float.

Definition NaN : number := nan.

(** [x === y] on numbers: false when either side is [NaN], true for
    [+0 === -0]. *)
Definition strict_equals (x y : number) : bool := (x =? y)%float.

(** [-0], told apart from [+0] by the sign of its inverse. *)
Definition is_neg_zero (x : number) : bool :=
  is_zero x && get_sign x.

(** [Math.max(x, y)]: [NaN] when either argument is [NaN]; [+0] is larger
    than [-0]. *)
Definition Math_max (x y : number) : number :=
  if is_nan x || is_nan y then NaN
  else if (x <? y)%float then y
  else if (y <? x)%float then x
  else if is_neg_zero x then y else x.

(** [Math.min(x, y)]: [NaN] when either argument is [NaN]; [-0] is smaller
    than [+0]. *)
Definition Math_min (x y : number) : number :=
  if is_nan x || is_nan y then NaN
  else if (x <? y)%float then x
  else if (y <? x)%float then y
  else if is_neg_zero x then x else y.

End Js.

(** ** Exceptions and the handler monad *)

Inductive DOMException : Type :=
| IndexSizeError.

Inductive Completion (A : Type) : Type :=
| Normal (a : A)
| Throw (e : DOMException).

Arguments Throw {A} e.

(** ** The media element *)

Module TimeRanges.

(** The buffered ranges, each with its start and its end, in order. *)
Definition t := list (Js.number * Js.number).

Definition length (r : t) : Z := Z.of_nat (List.length r).

(** [r.end(index)] raises [IndexSizeError] outside [0 .. length - 1]. *)
Definition end_ (r : t) (index : Z) : Completion Js.number :=
  if (0 <=? index)%Z && (index <? length r)%Z
  then match nth_error r (Z.to_nat index) with
       | Some range => Normal (snd range)
       | None => Throw IndexSizeError
       end
  else Throw IndexSizeError.

End TimeRanges.

Module HTMLVideoElement.

(** The properties of the element the hook reads or assigns. *)
Record t : Type := mk {
  currentTime : Js.number;
  duration : Js.number;
  buffered : TimeRanges.t;
  volume : Js.number;
  muted : bool;
  playbackRate : Js.number
}.

Definition set_currentTime (x : Js.number) (v : t) : t :=
  mk x (duration v) (buffered v) (volume v) (muted v) (playbackRate v).
Definition set_volume (x : Js.number) (v : t) : t :=
  mk (currentTime v) (duration v) (buffered v) x (muted v) (playbackRate v).
Definition set_muted (b : bool) (v : t) : t :=
  mk (currentTime v) (duration v) (buffered v) (volume v) b (playbackRate v).
Definition set_playbackRate (x : Js.number) (v : t) : t :=
  mk (currentTime v) (duration v) (buffered v) (volume v) (muted v) x.

End HTMLVideoElement.

(** ** The state of the hook *)

Module VideoState.

Record t : Type := mk {
  isPlaying : bool;
  volume : Js.number;
  isMuted : bool;
  progress : Js.number;
  isFullscreen : bool;
  playbackRate : Js.number;
  currentTime : Js.number;
  duration : Js.number;
  buffered : Js.number
}.

(** The argument of [useState]. *)
Definition initial : t :=
  mk false 1%float false 0%float false 1%float 0%float 0%float 0%float.

(** The object spreads [{ ...prev, field: value }] of the updaters. *)
Definition with_isPlaying (b : bool) (s : t) : t :=
  mk b (volume s) (isMuted s) (progress s) (isFullscreen s)
     (playbackRate s) (currentTime s) (duration s) (buffered s).
Definition with_volume_isMuted (x : Js.number) (b : bool) (s : t) : t :=
  mk (isPlaying s) x b (progress s) (isFullscreen s)
     (playbackRate s) (currentTime s) (duration s) (buffered s).
Definition with_isMuted (b : bool) (s : t) : t :=
  mk (isPlaying s) (volume s) b (progress s) (isFullscreen s)
     (playbackRate s) (currentTime s) (duration s) (buffered s).
Definition with_time (c d p b : Js.number) (s : t) : t :=
  mk (isPlaying s) (volume s) (isMuted s) p (isFullscreen s)
     (playbackRate s) c d b.
Definition with_isFullscreen (b : bool) (s : t) : t :=
  mk (isPlaying s) (volume s) (isMuted s) (progress s) b
     (playbackRate s) (currentTime s) (duration s) (buffered s).
Definition with_playbackRate (x : Js.number) (s : t) : t :=
  mk (isPlaying s) (volume s) (isMuted s) (progress s) (isFullscreen s)
     x (currentTime s) (duration s) (buffered s).
Definition with_progress (x : Js.number) (s : t) : t :=
  mk (isPlaying s) (volume s) (isMuted s) x (isFullscreen s)
     (playbackRate s) (currentTime s) (duration s) (buffered s).

End VideoState.

(** ** The world a handler runs in *)

(** What a handler does to its collaborators, in the order it does it. *)
Inductive Effect : Type :=
| video_play
| video_pause
| video_assign_currentTime (x : Js.number)
| video_assign_volume (x : Js.number)
| video_assign_muted (b : bool)
| video_assign_playbackRate (x : Js.number)
| video_requestFullscreen
| document_exitFullscreen
| onTimeUpdate_called (currentTime : Js.number).

Record Env : Type := mkEnv {
  (** [videoRef.current] *)
  videoRef_current : option HTMLVideoElement.t;
  (** the state React holds for the hook, queued updaters applied *)
  held : VideoState.t;
  (** whether [document.fullscreenElement] is set *)
  document_fullscreenElement : bool;
  effects : list Effect
}.

Definition M (A : Type) : Type := Env -> Completion (A * Env).

Definition ret {A} (a : A) : M A := fun env => Normal (a, env).

Definition bind {A B} (m : M A) (k : A -> M B) : M B :=
  fun env =>
    match m env with
    | Normal (a, env') => k a env'
    | Throw e => Throw e
    end.

Definition lift {A} (c : Completion A) : M A :=
  fun env =>
    match c with
    | Normal a => Normal (a, env)
    | Throw e => Throw e
    end.

Declare Scope handler_scope.
Delimit Scope handler_scope with handler.
Notation "x <- m ;; k" := (bind m (fun x => k))
  (at level 100, m at next level, right associativity) : handler_scope.
Notation "m ;; k" := (bind m (fun _ => k))
  (at level 100, right associativity) : handler_scope.
Open Scope handler_scope.

(** Reads [videoRef.current]. *)
Definition current : M (option HTMLVideoElement.t) :=
  fun env => Normal (videoRef_current env, env).

Definition emit (e : Effect) : M unit :=
  fun env =>
    Normal (tt, mkEnv (videoRef_current env) (held env)
                      (document_fullscreenElement env) (effects env ++ [e])).

(** A property assignment [videoRef.current.p = x]: the element keeps the
    assigned value and the assignment is recorded. *)
Definition assign (e : Effect)
    (set : HTMLVideoElement.t -> HTMLVideoElement.t) : M unit :=
  fun env =>
    Normal (tt, mkEnv (option_map set (videoRef_current env)) (held env)
                      (document_fullscreenElement env) (effects env ++ [e])).

(** [setVideoState((prev) => f(prev))] *)
Definition setVideoState (f : VideoState.t -> VideoState.t) : M unit :=
  fun env =>
    Normal (tt, mkEnv (videoRef_current env) (f (held env))
                      (document_fullscreenElement env) (effects env)).

Definition fullscreenElement : M bool :=
  fun env => Normal (document_fullscreenElement env, env).

(** ** The handlers of [useVideoPlayer] *)

Section useVideoPlayer.

(** The state captured by the callbacks of one render. *)
Variable videoState : VideoState.t.

(** Whether the optional [onTimeUpdate] callback was passed. *)
Variable onTimeUpdate : bool.

Definition togglePlayPause : M unit :=
  v <- current ;;
  match v with
  | Some _ =>
      (if VideoState.isPlaying videoState
       then emit video_pause
       else emit video_play) ;;
      setVideoState
        (fun prev =>
           VideoState.with_isPlaying (negb (VideoState.isPlaying prev)) prev)
  | None => ret tt
  end.

(** [newVolume] is [parseFloat(event.target.value)]. *)
Definition handleVolumeChange (newVolume : Js.number) : M unit :=
  v <- current ;;
  match v with
  | Some _ =>
      assign (video_assign_volume newVolume)
             (HTMLVideoElement.set_volume newVolume) ;;
      setVideoState
        (VideoState.with_volume_isMuted
           newVolume (Js.strict_equals newVolume 0%float))
  | None => ret tt
  end.

Definition toggleMute : M unit :=
  v <- current ;;
  match v with
  | Some _ =>
      let muted := negb (VideoState.isMuted videoState) in
      assign (video_assign_muted muted)
             (HTMLVideoElement.set_muted muted) ;;
      setVideoState (VideoState.with_isMuted muted)
  | None => ret tt
  end.

Definition handleTimeUpdate : M unit :=
  v <- current ;;
  match v with
  | Some video =>
      let currentTime := HTMLVideoElement.currentTime video in
      let duration := HTMLVideoElement.duration video in
      let ranges := HTMLVideoElement.buffered video in
      buffered <-
        (if (TimeRanges.length ranges =? 0)%Z
         then ret 0%float
         else lift (TimeRanges.end_ ranges (TimeRanges.length ranges - 1))) ;;
      setVideoState
        (VideoState.with_time
           currentTime duration
           ((currentTime / duration) * 100)%float
           ((buffered / duration) * 100)%float) ;;
      if onTimeUpdate then emit (onTimeUpdate_called currentTime) else ret tt
  | None => ret tt
  end.

(** [percent] is [parseFloat(event.target.value)]. *)
Definition handleSeek (percent : Js.number) : M unit :=
  v <- current ;;
  match v with
  | Some video =>
      let newTime :=
        ((percent / 100) * HTMLVideoElement.duration video)%float in
      assign (video_assign_currentTime newTime)
             (HTMLVideoElement.set_currentTime newTime)
  | None => ret tt
  end.

Definition toggleFullscreen : M unit :=
  v <- current ;;
  match v with
  | Some _ =>
      fs <- fullscreenElement ;;
      if negb fs
      then emit video_requestFullscreen ;;
           setVideoState (VideoState.with_isFullscreen true)
      else emit document_exitFullscreen ;;
           setVideoState (VideoState.with_isFullscreen false)
  | None => ret tt
  end.

Definition handleSkip (time : Js.number) : M unit :=
  v <- current ;;
  match v with
  | Some video =>
      let target :=
        Js.Math_min
          (Js.Math_max (HTMLVideoElement.currentTime video + time)%float
                       0%float)
          (HTMLVideoElement.duration video) in
      assign (video_assign_currentTime target)
             (HTMLVideoElement.set_currentTime target)
  | None => ret tt
  end.

Definition handlePlaybackRateChange (rate : Js.number) : M unit :=
  v <- current ;;
  match v with
  | Some _ =>
      assign (video_assign_playbackRate rate)
             (HTMLVideoElement.set_playbackRate rate) ;;
      setVideoState (VideoState.with_playbackRate rate)
  | None => ret tt
  end.

Definition restartVideo : M unit :=
  v <- current ;;
  match v with
  | Some _ =>
      assign (video_assign_currentTime 0%float)
             (HTMLVideoElement.set_currentTime 0%float) ;;
      setVideoState (VideoState.with_progress 0%float)
  | None => ret tt
  end.

End useVideoPlayer.

(** A call through the callback of the latest render: the state the closure
    captured is the state React holds. *)
Definition latest (callback : VideoState.t -> M unit) : M unit :=
  fun env => callback (held env) env.

(** ** The slide carousel *)

Module SlideViewer.

(** [images.length] *)
Definition length (images : list string) : Z :=
  Z.of_nat (List.length images).

(** The updater [changeImage(direction)] hands to [setCurrentImageIndex].
    Indices and lengths are integers below 2^53, on which the additions
    and [%] of JavaScript are exact; [%] takes the sign of the dividend,
    as [Z.rem] does. *)
Definition changeImage (images : list string) (direction prevIndex : Z)
  : Z :=
  Z.rem (prevIndex + direction + length images) (length images).

End SlideViewer.

(** ** The values the seeking handlers assign *)

(** The [newTime] of [handleSeek]. *)
Definition seek_target (video : HTMLVideoElement.t) (percent : Js.number)
  : Js.number :=
  ((percent / 100) * HTMLVideoElement.duration video)%float.


(** The element after [videoRef.current.currentTime = x], the hook's state
    untouched. *)
Definition after_seek (env : Env) (video : HTMLVideoElement.t)
    (x : Js.number) : Env :=
  mkEnv (Some (HTMLVideoElement.set_currentTime x video)) (held env)
        (document_fullscreenElement env)
        (effects env ++ [video_assign_currentTime x]).

(** ** Environments used in the examples *)

(** An element at [currentTime] of a resource of [duration], nothing
    buffered, full volume, normal rate. *)
Definition video_of (currentTime duration : Js.number) : HTMLVideoElement.t :=
  HTMLVideoElement.mk currentTime duration [] 1%float false 1%float.

(** The hook right after the element mounted. *)
Definition mounted (video : HTMLVideoElement.t) : Env :=
  mkEnv (Some video) VideoState.initial false [].

(** Three slides. *)
Definition slides : list string :=
  ["/slides/1.jpg"; "/slides/2.jpg"; "/slides/3.jpg"]%string.

(** The hook before the element mounts. *)
Definition unmounted : Env :=
  mkEnv None VideoState.initial false [].

(** ** The slide viewer component *)

Module Slides.

(** The four [useState] cells of [SlideViewer].  [rotation], like the image
    index, only ever holds integers, on which [+], [-] and [%] are exact. *)
Record t : Type := mk {
  currentImageIndex : Z;
  zoomLevel : Js.number;
  rotation : Z;
  isFullscreen : bool
}.

(** The arguments of the four [useState] calls. *)
Definition initial : t := mk 0 1%float 0 false.

(** The updaters of [handleZoomIn] and [handleZoomOut]. *)
Definition handleZoomIn (prev : Js.number) : Js.number :=
  Js.Math_min (prev + 0.5)%float 4%float.

Definition handleZoomOut (prev : Js.number) : Js.number :=
  Js.Math_max (prev - 0.5)%float 1%float.

(** The updaters of [rotateLeft] and [rotateRight]. *)
Definition rotateLeft (prev : Z) : Z := Z.rem (prev - 90 + 360) 360.

Definition rotateRight (prev : Z) : Z := Z.rem (prev + 90) 360.

Definition resetView (s : t) : t :=
  mk (currentImageIndex s) 1%float 0 (isFullscreen s).

(** What [toggleFullscreen] asks of the document. *)
Inductive Request : Type :=
| documentElement_requestFullscreen
| document_exitFullscreen.

(** [toggleFullscreen]: the request follows [document.fullscreenElement],
    the flag is the negation of the [isFullscreen] the closure captured. *)
Definition toggleFullscreen (isFullscreen_captured : bool)
    (document_fullscreenElement : bool) (s : t) : Request * t :=
  (if negb document_fullscreenElement
   then documentElement_requestFullscreen
   else document_exitFullscreen,
   mk (currentImageIndex s) (zoomLevel s) (rotation s)
      (negb isFullscreen_captured)).

(** The effect that depends on [isFullscreen]: it runs after the first
    render and after every render in which [isFullscreen] changed. *)
Definition effect_isFullscreen (s : t) : t :=
  if negb (isFullscreen s) then resetView s else s.

(** [images[currentImageIndex]], [None] for [undefined]. *)
Definition currentImageSrc (images : list string) (s : t) : option string :=
  if (0 <=? currentImageIndex s)%Z
  then nth_error images (Z.to_nat (currentImageIndex s))
  else None.

Definition with_index (i : Z) (s : t) : t :=
  mk i (zoomLevel s) (rotation s) (isFullscreen s).
Definition with_zoom (z : Js.number) (s : t) : t :=
  mk (currentImageIndex s) z (rotation s) (isFullscreen s).
Definition with_rotation (r : Z) (s : t) : t :=
  mk (currentImageIndex s) (zoomLevel s) r (isFullscreen s).

(** [handleKeyDown], on [event.key]. *)
Definition handleKeyDown (images : list string) (key : string) (s : t) : t :=
  if String.eqb key "ArrowLeft" then
    with_index (SlideViewer.changeImage images (-1) (currentImageIndex s)) s
  else if String.eqb key "ArrowRight" then
    with_index (SlideViewer.changeImage images 1 (currentImageIndex s)) s
  else if String.eqb key "+" then with_zoom (handleZoomIn (zoomLevel s)) s
  else if String.eqb key "-" then with_zoom (handleZoomOut (zoomLevel s)) s
  else if String.eqb key "r" then resetView s
  else if String.eqb key "[" then with_rotation (rotateLeft (rotation s)) s
  else if String.eqb key "]" then with_rotation (rotateRight (rotation s)) s
  else s.

(** What the user can do to the mounted viewer. *)
Inductive Action : Type :=
| keydown (key : string)
| click_previous
| click_next
| click_zoom_in
| click_zoom_out
| click_rotate_left
| click_rotate_right
| click_reset
| click_fullscreen (document_fullscreenElement : bool)
| click_indicator (index : Z).

(** The indicators are drawn by [images.map]: their indices are those of
    the array. *)
Definition offered (images : list string) (a : Action) : bool :=
  match a with
  | click_indicator index =>
      (0 <=? index)%Z && (index <? SlideViewer.length images)%Z
  | _ => true
  end.

(** One action, through the handlers of the current render, followed by
    the effects of the render it causes. *)
Definition step (images : list string) (s : t) (a : Action) : t :=
  match a with
  | keydown key => handleKeyDown images key s
  | click_previous =>
      with_index (SlideViewer.changeImage images (-1) (currentImageIndex s)) s
  | click_next =>
      with_index (SlideViewer.changeImage images 1 (currentImageIndex s)) s
  | click_zoom_in => with_zoom (handleZoomIn (zoomLevel s)) s
  | click_zoom_out => with_zoom (handleZoomOut (zoomLevel s)) s
  | click_rotate_left => with_rotation (rotateLeft (rotation s)) s
  | click_rotate_right => with_rotation (rotateRight (rotation s)) s
  | click_reset => resetView s
  | click_fullscreen document_fullscreenElement =>
      effect_isFullscreen
        (snd (toggleFullscreen (isFullscreen s) document_fullscreenElement s))
  | click_indicator index => with_index index s
  end.

(** The viewer after a series of actions, from its first render. *)
Definition run (images : list string) (actions : list Action) : t :=
  fold_left (step images) actions (effect_isFullscreen initial).

(** The zoom levels the two zoom handlers move between. *)
Definition zoom_levels : list Js.number :=
  [1; 1.5; 2; 2.5; 3; 3.5; 4]%float.

End Slides.

(** What every state the viewer can reach satisfies: the index points into
    [images], the zoom is one of the seven levels, the rotation a multiple
    of 90 below 360. *)
Definition settled (images : list string) (s : Slides.t) : Prop :=
  (0 <= Slides.currentImageIndex s < SlideViewer.length images)%Z /\
  In (Slides.zoomLevel s) Slides.zoom_levels /\
  In (Slides.rotation s) [0; 90; 180; 270]%Z.

(** Whether a request asks the document to enter fullscreen. *)
Definition enters (q : Slides.Request) : bool :=
  match q with
  | Slides.documentElement_requestFullscreen => true
  | Slides.document_exitFullscreen => false
  end.

(** The state a time update leaves, as a function of the element: the edge
    of the buffer is the end of the last range, 0 when there is none. *)
Definition time_update_state (video : HTMLVideoElement.t) (s : VideoState.t)
  : VideoState.t :=
  VideoState.with_time
    (HTMLVideoElement.currentTime video)
    (HTMLVideoElement.duration video)
    (HTMLVideoElement.currentTime video / HTMLVideoElement.duration video
       * 100)%float
    (snd (last (HTMLVideoElement.buffered video) (0, 0)%float)
       / HTMLVideoElement.duration video * 100)%float
    s.

(** ** Dates, as far as [formattedTime] uses them *)

Module Date.

Open Scope Z_scope.

(** The integer a finite number truncates to; [None] for [NaN] and the
    infinities. *)
Definition truncate (x : Js.number) : option Z :=
  match Prim2SF x with
  | S754_zero _ => Some 0
  | S754_finite s m e =>
      Some (if s then - Z.shiftl (Z.pos m) e else Z.shiftl (Z.pos m) e)
  | _ => None
  end.

(** The time value of [new Date(value)]: [None] for an invalid date, which
    is what a value that is not finite or lies more than 8.64e15 ms from
    the epoch gives. *)
Definition TimeClip (time : Js.number) : option Z :=
  if negb (is_finite time) then None
  else if (8.64e15 <? abs time)%float then None
  else truncate time.

(** Year, month and day of a day number (days since 1970-01-01) in the
    proleptic Gregorian calendar. *)
Definition civil (day : Z) : Z * Z * Z :=
  let z := day + 719468 in
  let era := z / 146097 in
  let doe := z - era * 146097 in
  let yoe := (doe - doe / 1460 + doe / 36524 - doe / 146096) / 365 in
  let doy := doe - (365 * yoe + yoe / 4 - yoe / 100) in
  let mp := (5 * doy + 2) / 153 in
  let d := doy - (153 * mp + 2) / 5 + 1 in
  let m := if mp <? 10 then mp + 3 else mp - 9 in
  (yoe + era * 400 + (if m <=? 2 then 1 else 0), m, d).

Definition digit (n : Z) : ascii := ascii_of_nat (48 + Z.to_nat (n mod 10)).

(** The last [width] decimal digits of [n]. *)
Fixpoint pad (width : nat) (n : Z) : string :=
  match width with
  | O => EmptyString
  | S w => (pad w (n / 10) ++ String (digit n) EmptyString)%string
  end.

(** Years 0 to 9999 take four digits, the others a sign and six. *)
Definition year_text (y : Z) : string :=
  if (0 <=? y) && (y <=? 9999) then pad 4 y
  else ((if (y <? 0)%Z then "-" else "+") ++ pad 6 (Z.abs y))%string.

(** [HH:mm:ss] of the milliseconds [t] within a day. *)
Definition clock (t : Z) : string :=
  (pad 2 (t / 3600000) ++ ":" ++ pad 2 (t / 60000 mod 60) ++ ":"
     ++ pad 2 (t / 1000 mod 60))%string.

(** [toISOString()] of a valid date: [YYYY-MM-DDTHH:mm:ss.sssZ]. *)
Definition toISOString (tv : Z) : string :=
  let '(y, m, d) := civil (tv / 86400000) in
  let t := tv mod 86400000 in
  (year_text y ++ "-" ++ pad 2 m ++ "-" ++ pad 2 d ++ "T"
     ++ clock t ++ "." ++ pad 3 (t mod 1000) ++ "Z")%string.

End Date.

(** The [format] of [formattedTime]:
    [new Date(time * 1000).toISOString().substr(11, 8)].  [None] is the
    [RangeError] that [toISOString] raises on an invalid date. *)
Definition format (time : Js.number) : option string :=
  match Date.TimeClip (time * 1000)%float with
  | Some tv => Some (substring 11 8 (Date.toISOString tv))
  | None => None
  end.

(** The text between the seek bar and the mute button. *)
Definition formattedTime (videoState : VideoState.t) : option string :=
  match format (VideoState.currentTime videoState) with
  | Some current =>
      match format (VideoState.duration videoState) with
      | Some total => Some (current ++ " / " ++ total)%string
      | None => None
      end
  | None => None
  end.

(** * Facts about binary64 comparisons *)

Section Binary64.

Open Scope float_scope.

Lemma Prim2SF_nan : Prim2SF nan = S754_nan.
Proof. reflexivity. Qed.

Lemma Prim2SF_zero : Prim2SF 0 = S754_zero false.
Proof. reflexivity. Qed.

Lemma SFcompare_refl f : f <> S754_nan -> SFcompare f f = Some Eq.
Proof.
  destruct f as [s| s| |s m e]; simpl; intros H; try congruence.
  - destruct s; reflexivity.
  - rewrite Z.compare_refl.
    change (Pos.compare_cont Eq m m) with (Pos.compare m m).
    rewrite Pos.compare_refl. destruct s; reflexivity.
Qed.

(** There is one [NaN]. *)
Lemma is_nan_true x : is_nan x = true -> x = nan.
Proof.
  unfold is_nan. rewrite eqb_spec. unfold SFeqb. intros H.
  apply Prim2SF_inj. rewrite Prim2SF_nan.
  destruct (Prim2SF x) eqn:E; try reflexivity;
    rewrite SFcompare_refl in H by discriminate; discriminate.
Qed.


Lemma div_nan_r x : x / nan = nan.
Proof.
  apply Prim2SF_inj. rewrite div_spec, Prim2SF_nan.
  unfold SF64div, SFdiv. destruct (Prim2SF x); reflexivity.
Qed.

Lemma add_nan_l x : nan + x = nan.
Proof.
  apply Prim2SF_inj. rewrite add_spec, Prim2SF_nan. reflexivity.
Qed.

End Binary64.

(** Comparisons of primitive floats, read on their specification. *)
Ltac on_spec :=
  unfold Js.strict_equals, is_nan in *;
  rewrite ?eqb_spec, ?ltb_spec, ?leb_spec, ?Prim2SF_zero in *;
  unfold SFeqb, SFltb, SFleb in *.

Ltac compare_cases :=
  repeat match goal with
    | |- context [Z.compare ?a ?b] => destruct (Z.compare_spec a b)
    | H : context [Z.compare ?a ?b] |- _ => destruct (Z.compare_spec a b)
    | |- context [Pos.compare_cont Eq ?a ?b] =>
        change (Pos.compare_cont Eq a b) with (Pos.compare a b);
        destruct (Pos.compare_spec a b)
    | H : context [Pos.compare_cont Eq ?a ?b] |- _ =>
        change (Pos.compare_cont Eq a b) with (Pos.compare a b) in H;
        destruct (Pos.compare_spec a b)
    end.

(** Decides a statement about [SFcompare] on spec floats by cases on the
    floats, then on their signs, exponents and mantissas. *)
Ltac by_spec_cases :=
  repeat match goal with f : spec_float |- _ => destruct f end;
  repeat match goal with s : bool |- _ => destruct s end;
  simpl in *; try discriminate; try reflexivity; try tauto;
  compare_cases; simpl in *; subst;
  try discriminate; try reflexivity; try tauto; try lia.

Ltac float_order :=
  intros; on_spec;
  repeat match goal with
    | |- context [Prim2SF ?x] => generalize dependent (Prim2SF x); intro
    | H : context [Prim2SF ?x] |- _ => generalize dependent (Prim2SF x); intro
    end;
  intros; by_spec_cases.

Section Order.

Open Scope float_scope.


Lemma ltb_trans x y z : (x <? y) = true -> (y <? z) = true -> (x <? z) = true.
Proof. float_order. Qed.

Lemma leb_ltb_trans x y z :
  (x <=? y) = true -> (y <? z) = true -> (x <? z) = true.
Proof. float_order. Qed.

Lemma leb_not_ltb x y : (x <=? y) = true -> (y <? x) = false.
Proof. float_order. Qed.

Lemma ltb_leb x y : (x <? y) = true -> (x <=? y) = true.
Proof. float_order. Qed.

Lemma leb_refl x : is_nan x = false -> (x <=? x) = true.
Proof. float_order. Qed.

Lemma not_ltb_eqb x y :
  is_nan x = false -> is_nan y = false ->
  (x <? y) = false -> (y <? x) = false -> (x =? y) = true.
Proof. float_order. Qed.

End Order.

(** * [Math.min] and [Math.max] as a clamp *)

Section Clamp.

Open Scope float_scope.


Lemma Math_max_NaN_l y : Js.Math_max nan y = nan.
Proof. reflexivity. Qed.

Lemma Math_min_NaN_l y : Js.Math_min nan y = nan.
Proof. reflexivity. Qed.



End Clamp.

(** * The handlers on a mounted element *)

Section Mounted.

Open Scope float_scope.

(** Reading the end of the last buffered range never raises. *)
Lemma TimeRanges_end_last (r : TimeRanges.t) :
  (TimeRanges.length r =? 0)%Z = false ->
  exists x, TimeRanges.end_ r (TimeRanges.length r - 1) = Normal x.
Proof.
  unfold TimeRanges.end_, TimeRanges.length. intros H.
  apply Z.eqb_neq in H.
  assert (Hlt : (Z.to_nat (Z.of_nat (List.length r) - 1) < List.length r)%nat)
    by lia.
  replace ((0 <=? Z.of_nat (List.length r) - 1)%Z
           && (Z.of_nat (List.length r) - 1 <? Z.of_nat (List.length r))%Z)
    with true
    by (symmetry; apply andb_true_intro; split;
        [apply Z.leb_le | apply Z.ltb_lt]; lia).
  destruct (nth_error r (Z.to_nat (Z.of_nat (List.length r) - 1))) eqn:E.
  - eexists. reflexivity.
  - apply nth_error_None in E. lia.
Qed.

(** [handleTimeUpdate] always returns, and stores the two quotients as
    they come out of the division. *)
Lemma handleTimeUpdate_returns onTimeUpdate env video :
  videoRef_current env = Some video ->
  exists edge env',
    handleTimeUpdate onTimeUpdate env = Normal (tt, env') /\
    held env' =
      VideoState.with_time
        (HTMLVideoElement.currentTime video)
        (HTMLVideoElement.duration video)
        (HTMLVideoElement.currentTime video
           / HTMLVideoElement.duration video * 100)
        (edge / HTMLVideoElement.duration video * 100)
        (held env) /\
    videoRef_current env' = Some video.
Proof.
  intros Hv. unfold handleTimeUpdate, bind, current. rewrite Hv.
  destruct (TimeRanges.length (HTMLVideoElement.buffered video) =? 0)%Z eqn:L.
  - exists 0. destruct onTimeUpdate; eexists; repeat split; exact Hv.
  - destruct (TimeRanges_end_last _ L) as [x Hx]. exists x.
    unfold lift. rewrite Hx.
    destruct onTimeUpdate; eexists; repeat split; exact Hv.
Qed.

(** While the duration is [NaN], every time update stores [NaN] in
    [progress] and in [buffered]. *)
Lemma handleTimeUpdate_NaN_duration onTimeUpdate env video :
  videoRef_current env = Some video ->
  HTMLVideoElement.duration video = nan ->
  exists env',
    handleTimeUpdate onTimeUpdate env = Normal (tt, env') /\
    VideoState.progress (held env') = nan /\
    VideoState.buffered (held env') = nan.
Proof.
  intros Hv Hd.
  destruct (handleTimeUpdate_returns onTimeUpdate env Hv)
    as (edge & env' & Hrun & Hheld & _).
  exists env'. split; [exact Hrun |].
  rewrite Hheld, Hd. simpl. rewrite !div_nan_r. split; reflexivity.
Qed.

(** C1, evaluated on the code.  A time update that finds the duration
    [NaN] (metadata not loaded), or finds duration [0] at time [0], stores
    [NaN] in [progress] and in [buffered]; the claim asks for [0]. *)
Theorem handleTimeUpdate_stores_NaN :
  handleTimeUpdate false (mounted (video_of 0 nan)) =
    Normal (tt, mkEnv (Some (video_of 0 nan))
                      (VideoState.with_time 0 nan nan nan VideoState.initial)
                      false [])
  /\
  handleTimeUpdate false (mounted (video_of 0 0)) =
    Normal (tt, mkEnv (Some (video_of 0 0))
                      (VideoState.with_time 0 0 nan nan VideoState.initial)
                      false []).
Proof. split; vm_compute; reflexivity. Qed.

(** With the duration known the same handler gives the percentage: half
    of 120 seconds is 50. *)
Example handleTimeUpdate_half :
  handleTimeUpdate true (mounted (video_of 60 120)) =
    Normal (tt, mkEnv (Some (video_of 60 120))
                      (VideoState.with_time 60 120 50 0 VideoState.initial)
                      false [onTimeUpdate_called 60]).
Proof. vm_compute. reflexivity. Qed.

(** Two calls through one callback (no render between them) read the same
    captured [isPlaying]: they repeat the command and flip the held flag
    twice. *)
Lemma togglePlayPause_same_callback videoState env video :
  videoRef_current env = Some video ->
  (togglePlayPause videoState ;; togglePlayPause videoState) env =
    Normal (tt, mkEnv (Some video) (held env)
                      (document_fullscreenElement env)
                      (effects env ++
                         (if VideoState.isPlaying videoState
                          then [video_pause; video_pause]
                          else [video_play; video_play]))).
Proof.
  intros Hv. destruct env as [ref st fs eff]. simpl in Hv. subst ref.
  destruct st as [p vol m pr f r c d b].
  unfold togglePlayPause, bind, current, setVideoState,
    VideoState.with_isPlaying; simpl.
  destruct (VideoState.isPlaying videoState); simpl;
    rewrite negb_involutive, <- app_assoc; reflexivity.
Qed.

(** X14.  When the component renders between the two calls, the second
    call sees the flag the first one set: the commands alternate and the
    flag agrees with the last one. *)
Lemma togglePlayPause_rendered_between env video :
  videoRef_current env = Some video ->
  (latest togglePlayPause ;; latest togglePlayPause) env =
    Normal (tt, mkEnv (Some video) (held env)
                      (document_fullscreenElement env)
                      (effects env ++
                         (if VideoState.isPlaying (held env)
                          then [video_pause; video_play]
                          else [video_play; video_pause]))).
Proof.
  intros Hv. destruct env as [ref st fs eff]. simpl in Hv. subst ref.
  destruct st as [p vol m pr f r c d b].
  unfold latest, togglePlayPause, bind, current, setVideoState,
    VideoState.with_isPlaying; simpl.
  destruct p; simpl; rewrite <- app_assoc; reflexivity.
Qed.

(** C2, evaluated on the code.  [togglePlayPause] called twice in
    immediate succession, through the callback of one render: from
    [isPlaying = false] the element receives [play] twice and [isPlaying]
    ends [false]; from [isPlaying = true] it receives [pause] twice and
    [isPlaying] ends [true].  The claim asks for the flag the last command
    implies ([true] after [play], [false] after [pause]). *)
Theorem togglePlayPause_twice_in_succession :
  (togglePlayPause VideoState.initial ;; togglePlayPause VideoState.initial)
    (mounted (video_of 0 120)) =
    Normal (tt, mkEnv (Some (video_of 0 120)) VideoState.initial false
                      [video_play; video_play])
  /\
  VideoState.isPlaying VideoState.initial = false
  /\
  (togglePlayPause (VideoState.with_isPlaying true VideoState.initial) ;;
   togglePlayPause (VideoState.with_isPlaying true VideoState.initial))
    (mkEnv (Some (video_of 0 120))
           (VideoState.with_isPlaying true VideoState.initial) false []) =
    Normal (tt, mkEnv (Some (video_of 0 120))
                      (VideoState.with_isPlaying true VideoState.initial)
                      false [video_pause; video_pause]).
Proof.
  split; [vm_compute; reflexivity |].
  split; [reflexivity | vm_compute; reflexivity].
Qed.

(** ** Seeking *)







(** The two skips of the testable properties. *)
Example handleSkip_back_from_5 :
  handleSkip (-10) (mounted (video_of 5 120)) =
    Normal (tt, after_seek (mounted (video_of 5 120)) (video_of 5 120) 0).
Proof. vm_compute. reflexivity. Qed.

Example handleSkip_forward_from_115 :
  handleSkip 10 (mounted (video_of 115 120)) =
    Normal (tt, after_seek (mounted (video_of 115 120)) (video_of 115 120)
                  120).
Proof. vm_compute. reflexivity. Qed.

End Mounted.

(** * Volume, mute, rate and restart *)

Section Settings.

Open Scope float_scope.




(** Volume 0 mutes; volume 0.5 after a mute unmutes. *)
Example handleVolumeChange_zero_mutes :
  handleVolumeChange 0 (mounted (video_of 0 120)) =
    Normal (tt, mkEnv (Some (HTMLVideoElement.mk 0 120 [] 0 false 1))
                      (VideoState.with_volume_isMuted 0 true
                         VideoState.initial)
                      false [video_assign_volume 0]).
Proof. vm_compute. reflexivity. Qed.

Example handleVolumeChange_half_unmutes :
  (latest toggleMute ;; handleVolumeChange 0.5) (mounted (video_of 0 120)) =
    Normal (tt, mkEnv (Some (HTMLVideoElement.mk 0 120 [] 0.5 true 1))
                      (VideoState.with_volume_isMuted 0.5 false
                         VideoState.initial)
                      false
                      [video_assign_muted true; video_assign_volume 0.5]).
Proof. vm_compute. reflexivity. Qed.






(** C8.  On every mounted element, whatever [isPlaying] is, [restartVideo]
    assigns 0 to the element's [currentTime], sets [progress] to 0 and
    leaves [isPlaying] as it was. *)
Theorem restartVideo_resets env video :
  videoRef_current env = Some video ->
  exists env',
    restartVideo env = Normal (tt, env') /\
    videoRef_current env' = Some (HTMLVideoElement.set_currentTime 0 video) /\
    effects env' = effects env ++ [video_assign_currentTime 0] /\
    VideoState.progress (held env') = 0 /\
    VideoState.isPlaying (held env') = VideoState.isPlaying (held env).
Proof.
  intros Hv. destruct env as [ref st fs eff]. simpl in Hv. subst ref.
  eexists. split; [reflexivity |]. repeat split.
Qed.

Lemma restartVideo_resets_witness :
  exists env',
    restartVideo
      (mkEnv (Some (video_of 60 120))
             (VideoState.with_progress 50
                (VideoState.with_isPlaying true VideoState.initial))
             false []) = Normal (tt, env') /\
    videoRef_current env' =
      Some (HTMLVideoElement.set_currentTime 0 (video_of 60 120)) /\
    effects env' = [] ++ [video_assign_currentTime 0] /\
    VideoState.progress (held env') = 0 /\
    VideoState.isPlaying (held env') = true.
Proof.
  exact (restartVideo_resets
           (mkEnv (Some (video_of 60 120))
                  (VideoState.with_progress 50
                     (VideoState.with_isPlaying true VideoState.initial))
                  false [])
           eq_refl).
Defined.

End Settings.

(** * Before the element mounts *)

(** C9.  While [videoRef.current] is empty every handler of the hook
    returns normally and leaves the environment as it found it: no effect
    on the element or the document, no change of state, no exception. *)
Theorem unattached_is_noop env videoState onTimeUpdate x :
  videoRef_current env = None ->
  togglePlayPause videoState env = Normal (tt, env) /\
  handleVolumeChange x env = Normal (tt, env) /\
  toggleMute videoState env = Normal (tt, env) /\
  handleSeek x env = Normal (tt, env) /\
  handleSkip x env = Normal (tt, env) /\
  handlePlaybackRateChange x env = Normal (tt, env) /\
  restartVideo env = Normal (tt, env) /\
  toggleFullscreen env = Normal (tt, env) /\
  handleTimeUpdate onTimeUpdate env = Normal (tt, env).
Proof.
  intros Hv.
  unfold togglePlayPause, handleVolumeChange, toggleMute, handleSeek,
    handleSkip, handlePlaybackRateChange, restartVideo, toggleFullscreen,
    handleTimeUpdate, bind, current.
  rewrite Hv. repeat split.
Qed.

Lemma unattached_is_noop_witness :
  togglePlayPause VideoState.initial unmounted = Normal (tt, unmounted) /\
  handleVolumeChange 0.5%float unmounted = Normal (tt, unmounted) /\
  toggleMute VideoState.initial unmounted = Normal (tt, unmounted) /\
  handleSeek 0.5%float unmounted = Normal (tt, unmounted) /\
  handleSkip 0.5%float unmounted = Normal (tt, unmounted) /\
  handlePlaybackRateChange 0.5%float unmounted = Normal (tt, unmounted) /\
  restartVideo unmounted = Normal (tt, unmounted) /\
  toggleFullscreen unmounted = Normal (tt, unmounted) /\
  handleTimeUpdate true unmounted = Normal (tt, unmounted).
Proof.
  exact (unattached_is_noop unmounted VideoState.initial true 0.5%float eq_refl).
Defined.

(** * The carousel index *)

Section Carousel.

Open Scope Z_scope.

Lemma rem_small a n : 0 <= a < n -> Z.rem (a + n) n = a.
Proof.
  intros H. rewrite Z.rem_mod_nonneg by lia.
  symmetry. apply (Z.mod_unique _ _ 1); lia.
Qed.

Lemma rem_twice n : 0 < n -> Z.rem (n + n) n = 0.
Proof.
  intros H. rewrite Z.rem_mod_nonneg by lia.
  symmetry. apply (Z.mod_unique _ _ 2); lia.
Qed.

Lemma rem_below n : 0 < n -> Z.rem (n - 1) n = n - 1.
Proof.
  intros H. rewrite Z.rem_mod_nonneg by lia.
  symmetry. apply (Z.mod_unique _ _ 0); lia.
Qed.

(** C10.  For every non-empty [images] array and every index in
    [[0, images.length)], [changeImage] with direction 1 or -1 gives an
    index in [[0, images.length)]: the next one, or 0 after the last; the
    previous one, or [images.length - 1] before the first. *)
Theorem changeImage_wraps images direction prevIndex :
  images <> [] ->
  0 <= prevIndex < SlideViewer.length images ->
  direction = 1 \/ direction = -1 ->
  0 <= SlideViewer.changeImage images direction prevIndex
    < SlideViewer.length images /\
  (direction = 1 ->
     SlideViewer.changeImage images direction prevIndex =
       if prevIndex =? SlideViewer.length images - 1
       then 0 else prevIndex + 1) /\
  (direction = -1 ->
     SlideViewer.changeImage images direction prevIndex =
       if prevIndex =? 0
       then SlideViewer.length images - 1 else prevIndex - 1).
Proof.
  intros Hne Hi Hd. unfold SlideViewer.changeImage.
  set (n := SlideViewer.length images) in *.
  assert (Hn : 0 < n) by lia.
  assert (Hnext : Z.rem (prevIndex + 1 + n) n =
                  if prevIndex =? n - 1 then 0 else prevIndex + 1).
  { destruct (Z.eqb_spec prevIndex (n - 1)) as [-> | Hlast].
    - replace (n - 1 + 1 + n) with (n + n) by lia. now apply rem_twice.
    - apply rem_small. lia. }
  assert (Hprev : Z.rem (prevIndex + -1 + n) n =
                  if prevIndex =? 0 then n - 1 else prevIndex - 1).
  { destruct (Z.eqb_spec prevIndex 0) as [-> | Hfirst].
    - replace (0 + -1 + n) with (n - 1) by lia. now apply rem_below.
    - replace (prevIndex + -1 + n) with (prevIndex - 1 + n) by lia.
      apply rem_small. lia. }
  split; [| split].
  - destruct Hd as [-> | ->].
    + rewrite Hnext. destruct (Z.eqb_spec prevIndex (n - 1)); lia.
    + rewrite Hprev. destruct (Z.eqb_spec prevIndex 0); lia.
  - intros ->. exact Hnext.
  - intros ->. exact Hprev.
Qed.

Lemma changeImage_wraps_witness :
  SlideViewer.changeImage slides 1 2 = 0 /\
  SlideViewer.changeImage slides (-1) 0 = 2.
Proof.
  split.
  - apply (proj1 (proj2 (@changeImage_wraps slides 1 2
                           ltac:(discriminate) ltac:(vm_compute; intuition discriminate)
                           (or_introl eq_refl))) eq_refl).
  - apply (proj2 (proj2 (@changeImage_wraps slides (-1) 0
                           ltac:(discriminate) ltac:(vm_compute; intuition discriminate)
                           (or_intror eq_refl))) eq_refl).
Defined.

End Carousel.

(** * The slide viewer *)

Section Viewer.

Open Scope Z_scope.

Variable images : list string.
Hypothesis images_nonempty : images <> [].

Lemma length_positive : 0 < SlideViewer.length images.
Proof.
  unfold SlideViewer.length. destruct images; [congruence | simpl; lia].
Qed.

Lemma changeImage_next i :
  0 <= i < SlideViewer.length images ->
  SlideViewer.changeImage images 1 i = (i + 1) mod SlideViewer.length images.
Proof.
  intros Hi. pose proof length_positive as Hn. unfold SlideViewer.changeImage.
  rewrite Z.rem_mod_nonneg by lia.
  rewrite <- (Z.mod_add (i + 1) 1) by lia. f_equal. lia.
Qed.

Lemma changeImage_previous i :
  0 <= i < SlideViewer.length images ->
  SlideViewer.changeImage images (-1) i =
    (i - 1) mod SlideViewer.length images.
Proof.
  intros Hi. pose proof length_positive as Hn. unfold SlideViewer.changeImage.
  rewrite Z.rem_mod_nonneg by lia.
  rewrite <- (Z.mod_add (i - 1) 1) by lia. f_equal. lia.
Qed.

Lemma changeImage_in_range d i :
  0 <= i < SlideViewer.length images -> d = 1 \/ d = -1 ->
  0 <= SlideViewer.changeImage images d i < SlideViewer.length images.
Proof.
  intros Hi [-> | ->]; pose proof length_positive.
  - rewrite changeImage_next by exact Hi. apply Z.mod_pos_bound. lia.
  - rewrite changeImage_previous by exact Hi. apply Z.mod_pos_bound. lia.
Qed.

(** X1.  On a non-empty [images] array and an index in range, "next" and
    "previous" undo each other: [changeImage(-1)] after [changeImage(1)]
    gives the index back, and so does [changeImage(1)] after
    [changeImage(-1)], also across the wrap at either end. *)
Theorem changeImage_next_previous i :
  0 <= i < SlideViewer.length images ->
  SlideViewer.changeImage images (-1) (SlideViewer.changeImage images 1 i) = i
  /\
  SlideViewer.changeImage images 1 (SlideViewer.changeImage images (-1) i) = i.
Proof.
  intros Hi. pose proof length_positive as Hn. split.
  - rewrite changeImage_previous
      by (apply changeImage_in_range; [exact Hi | now left]).
    rewrite changeImage_next by exact Hi.
    rewrite Zminus_mod_idemp_l. replace (i + 1 - 1) with i by lia.
    now apply Z.mod_small.
  - rewrite changeImage_next
      by (apply changeImage_in_range; [exact Hi | now right]).
    rewrite changeImage_previous by exact Hi.
    rewrite Zplus_mod_idemp_l. replace (i - 1 + 1) with i by lia.
    now apply Z.mod_small.
Qed.

(** X2.  [k] times "next" from index [i] lands on
    [(i + k) mod images.length]: the carousel is a cycle, and
    [images.length] steps lead back to where they started. *)
Theorem changeImage_next_iterated k i :
  0 <= i < SlideViewer.length images ->
  Nat.iter k (SlideViewer.changeImage images 1) i =
    (i + Z.of_nat k) mod SlideViewer.length images
  /\
  Nat.iter (List.length images) (SlideViewer.changeImage images 1) i = i.
Proof.
  intros Hi. pose proof length_positive as Hn.
  assert (Hiter : forall n,
             Nat.iter n (SlideViewer.changeImage images 1) i =
               (i + Z.of_nat n) mod SlideViewer.length images).
  { induction n as [| n IH].
    - simpl. rewrite Z.add_0_r. symmetry. now apply Z.mod_small.
    - rewrite Nat.iter_succ, IH.
      rewrite changeImage_next by (apply Z.mod_pos_bound; lia).
      rewrite Zplus_mod_idemp_l. f_equal. lia. }
  split; [apply Hiter |].
  rewrite Hiter. fold (SlideViewer.length images).
  replace (i + SlideViewer.length images)
    with (i + 1 * SlideViewer.length images) by lia.
  rewrite Z.mod_add by lia. now apply Z.mod_small.
Qed.

End Viewer.

Lemma slides_nonempty : slides <> [].
Proof. discriminate. Defined.

Lemma changeImage_next_previous_witness :
  (SlideViewer.changeImage slides (-1) (SlideViewer.changeImage slides 1 2)
     = 2 /\
   SlideViewer.changeImage slides 1 (SlideViewer.changeImage slides (-1) 2)
     = 2)%Z.
Proof.
  apply (@changeImage_next_previous slides slides_nonempty 2%Z).
  unfold SlideViewer.length. simpl. lia.
Defined.

Lemma changeImage_next_iterated_witness :
  Nat.iter 5 (SlideViewer.changeImage slides 1%Z) 1%Z =
    ((1 + Z.of_nat 5) mod SlideViewer.length slides)%Z
  /\
  Nat.iter (List.length slides) (SlideViewer.changeImage slides 1%Z) 1%Z
    = 1%Z.
Proof.
  apply (@changeImage_next_iterated slides slides_nonempty 5 1%Z).
  unfold SlideViewer.length. simpl. lia.
Defined.

Section Rotation.

Open Scope Z_scope.

(** X3.  On a rotation in [[0, 360)], [rotateLeft] undoes [rotateRight]
    and [rotateRight] undoes [rotateLeft], and four times [rotateRight] is
    a full turn that gives the rotation back. *)
Theorem rotate_inverse r :
  0 <= r < 360 ->
  Slides.rotateLeft (Slides.rotateRight r) = r /\
  Slides.rotateRight (Slides.rotateLeft r) = r /\
  Nat.iter 4 Slides.rotateRight r = r.
Proof.
  intros Hr. unfold Slides.rotateLeft, Slides.rotateRight. simpl Nat.iter.
  repeat split; Z.quot_rem_to_equations; lia.
Qed.

Lemma rotate_inverse_witness :
  Slides.rotateLeft (Slides.rotateRight 270) = 270 /\
  Slides.rotateRight (Slides.rotateLeft 270) = 270 /\
  Nat.iter 4 Slides.rotateRight 270 = 270.
Proof. apply (@rotate_inverse 270). lia. Defined.

Lemma rotation_steps r :
  In r [0; 90; 180; 270] ->
  In (Slides.rotateLeft r) [0; 90; 180; 270] /\
  In (Slides.rotateRight r) [0; 90; 180; 270].
Proof.
  simpl In. intros H.
  repeat (destruct H as [<- | H]; [vm_compute; intuition congruence |]).
  contradiction.
Qed.

End Rotation.

Section Zoom.

Open Scope float_scope.

Lemma zoom_level_cases z :
  In z Slides.zoom_levels ->
  In (Slides.handleZoomIn z) Slides.zoom_levels /\
  In (Slides.handleZoomOut z) Slides.zoom_levels /\
  (1 <=? z) = true /\ (z <=? 4) = true.
Proof.
  unfold Slides.zoom_levels. simpl In. intros H.
  repeat (destruct H as [<- | H]; [vm_compute; intuition congruence |]).
  contradiction.
Qed.

(** X4.  From each of the seven zoom levels [1, 1.5, ..., 4],
    [handleZoomIn] goes half a step up and stays at 4, [handleZoomOut] goes
    half a step down and stays at 1; below 4 a zoom out undoes a zoom in,
    above 1 a zoom in undoes a zoom out. *)
Theorem zoom_steps z :
  In z Slides.zoom_levels ->
  Slides.handleZoomIn z = (if z =? 4 then 4 else z + 0.5) /\
  Slides.handleZoomOut z = (if z =? 1 then 1 else z - 0.5) /\
  ((z =? 4) = false -> Slides.handleZoomOut (Slides.handleZoomIn z) = z) /\
  ((z =? 1) = false -> Slides.handleZoomIn (Slides.handleZoomOut z) = z).
Proof.
  unfold Slides.zoom_levels. simpl In. intros H.
  repeat (destruct H as [<- | H]; [vm_compute; intuition congruence |]).
  contradiction.
Qed.

Lemma zoom_steps_witness :
  Slides.handleZoomIn 3.5 = (if 3.5 =? 4 then 4 else 3.5 + 0.5) /\
  Slides.handleZoomOut 3.5 = (if 3.5 =? 1 then 1 else 3.5 - 0.5) /\
  ((3.5 =? 4) = false ->
   Slides.handleZoomOut (Slides.handleZoomIn 3.5) = 3.5) /\
  ((3.5 =? 1) = false ->
   Slides.handleZoomIn (Slides.handleZoomOut 3.5) = 3.5).
Proof.
  apply (@zoom_steps 3.5). vm_compute. tauto.
Defined.

End Zoom.

Section Reachable.

Open Scope Z_scope.

Variable images : list string.
Hypothesis images_nonempty : images <> [].

Lemma settled_reset s : settled images s -> settled images (Slides.resetView s).
Proof.
  intros (Hi & _ & _). repeat split; try apply Hi; simpl; auto.
Qed.

Lemma settled_key key s :
  settled images s -> settled images (Slides.handleKeyDown images key s).
Proof.
  intros Hs. pose proof Hs as (Hi & Hz & Hr). unfold Slides.handleKeyDown.
  repeat match goal with
    | |- context [String.eqb ?a ?b] => destruct (String.eqb a b)
    end;
    try exact Hs; try (now apply settled_reset);
    repeat split; simpl;
    try apply (changeImage_in_range images_nonempty); auto;
    try apply Hi; try apply zoom_level_cases; try apply rotation_steps; auto.
Qed.

Lemma settled_step s a :
  Slides.offered images a = true ->
  settled images s -> settled images (Slides.step images s a).
Proof.
  intros Ha Hs. pose proof Hs as (Hi & Hz & Hr).
  destruct a; simpl in *;
    try (now apply settled_key); try (now apply settled_reset);
    try (repeat split; simpl;
         try apply (changeImage_in_range images_nonempty); auto;
         try apply Hi; try apply zoom_level_cases; try apply rotation_steps;
         auto; fail).
  - unfold Slides.effect_isFullscreen. simpl.
    destruct (negb (negb (Slides.isFullscreen s)));
      [apply settled_reset |]; repeat split; simpl; auto; apply Hi.
  - apply andb_prop in Ha. destruct Ha as [H0 H1].
    apply Z.leb_le in H0. apply Z.ltb_lt in H1.
    repeat split; simpl; auto.
Qed.

(** X5.  Whatever the user does to a viewer with at least one image (any
    keys, any buttons, any indicator, fullscreen in and out, in any order),
    the image index stays inside the array, so the current image is never
    [undefined]; the zoom stays one of the seven levels between 1 and 4;
    the rotation stays one of 0, 90, 180, 270. *)
Theorem run_settled actions :
  forallb (Slides.offered images) actions = true ->
  settled images (Slides.run images actions) /\
  (exists src,
     Slides.currentImageSrc images (Slides.run images actions) = Some src) /\
  (1 <=? Slides.zoomLevel (Slides.run images actions))%float = true /\
  (Slides.zoomLevel (Slides.run images actions) <=? 4)%float = true.
Proof.
  intros Ha.
  assert (Hs : settled images (Slides.run images actions)).
  { unfold Slides.run.
    assert (H0 : settled images (Slides.effect_isFullscreen Slides.initial)).
    { pose proof (length_positive images_nonempty).
      repeat split; simpl; auto; lia. }
    revert H0 Ha. generalize (Slides.effect_isFullscreen Slides.initial).
    induction actions as [| a rest IH]; intros s Hs Ha; simpl in *.
    - exact Hs.
    - apply andb_prop in Ha. destruct Ha as [Ha Hrest].
      apply IH; [now apply settled_step | exact Hrest]. }
  split; [exact Hs |].
  destruct Hs as (Hi & Hz & _). split; [| apply (zoom_level_cases Hz)].
  unfold Slides.currentImageSrc.
  replace (0 <=? Slides.currentImageIndex (Slides.run images actions))
    with true by (symmetry; apply Z.leb_le; lia).
  destruct (nth_error images
              (Z.to_nat (Slides.currentImageIndex (Slides.run images actions))))
    eqn:E.
  - eexists. reflexivity.
  - apply nth_error_None in E. unfold SlideViewer.length in Hi. lia.
Qed.

End Reachable.

Lemma run_settled_witness :
  settled slides
    (Slides.run slides
       [Slides.keydown "ArrowLeft"; Slides.click_zoom_in;
        Slides.keydown "]"; Slides.click_fullscreen false;
        Slides.click_indicator 1; Slides.keydown "+"]) /\
  (exists src,
     Slides.currentImageSrc slides
       (Slides.run slides
          [Slides.keydown "ArrowLeft"; Slides.click_zoom_in;
           Slides.keydown "]"; Slides.click_fullscreen false;
           Slides.click_indicator 1; Slides.keydown "+"]) = Some src) /\
  (1 <=? Slides.zoomLevel
           (Slides.run slides
              [Slides.keydown "ArrowLeft"; Slides.click_zoom_in;
               Slides.keydown "]"; Slides.click_fullscreen false;
               Slides.click_indicator 1; Slides.keydown "+"]))%float = true /\
  (Slides.zoomLevel
     (Slides.run slides
        [Slides.keydown "ArrowLeft"; Slides.click_zoom_in;
         Slides.keydown "]"; Slides.click_fullscreen false;
         Slides.click_indicator 1; Slides.keydown "+"]) <=? 4)%float = true.
Proof.
  apply (@run_settled slides slides_nonempty). reflexivity.
Defined.

Section Fullscreen.

(** X6.  Leaving fullscreen throws the view away: a click on the
    fullscreen button while [isFullscreen] is set clears the flag and, by
    the effect that follows, puts the zoom back to 1 and the rotation to
    0, keeping the image; entering fullscreen keeps zoom, rotation and
    image. *)
Theorem leaving_fullscreen_resets images doc s :
  (Slides.isFullscreen s = true ->
   Slides.step images s (Slides.click_fullscreen doc) =
     Slides.mk (Slides.currentImageIndex s) 1%float 0%Z false) /\
  (Slides.isFullscreen s = false ->
   Slides.step images s (Slides.click_fullscreen doc) =
     Slides.mk (Slides.currentImageIndex s) (Slides.zoomLevel s)
               (Slides.rotation s) true).
Proof.
  destruct s as [i z r f]. simpl. split; intros ->; reflexivity.
Qed.

(** X7.  The viewer's [toggleFullscreen] picks its request from the
    document and its flag from its own state, so it never repairs a
    disagreement: after the call the flag says "fullscreen" exactly when
    the request was to enter, if and only if the flag agreed with
    [document.fullscreenElement] before the call. *)
Theorem toggleFullscreen_keeps_disagreement doc s :
  Bool.eqb
    (Slides.isFullscreen
       (snd (Slides.toggleFullscreen (Slides.isFullscreen s) doc s)))
    (enters (fst (Slides.toggleFullscreen (Slides.isFullscreen s) doc s))) =
  Bool.eqb (Slides.isFullscreen s) doc.
Proof. destruct s as [i z r []], doc; reflexivity. Qed.

End Fullscreen.

(** * Time updates *)

Section TimeUpdates.

Open Scope float_scope.

Lemma nth_error_last_range (r : TimeRanges.t) d :
  r <> [] -> nth_error r (Nat.pred (List.length r)) = Some (last r d).
Proof.
  induction r as [| a [| b r] IH]; intros Hne; [congruence | reflexivity |].
  apply (IH ltac:(discriminate)).
Qed.

Lemma TimeRanges_end_is_last (r : TimeRanges.t) :
  r <> [] ->
  TimeRanges.end_ r (TimeRanges.length r - 1) = Normal (snd (last r (0, 0))).
Proof.
  intros Hne. unfold TimeRanges.end_, TimeRanges.length.
  assert (Hpos : (0 < List.length r)%nat)
    by (destruct r; [congruence | simpl; lia]).
  replace ((0 <=? Z.of_nat (List.length r) - 1)%Z
           && (Z.of_nat (List.length r) - 1 <? Z.of_nat (List.length r))%Z)
    with true
    by (symmetry; apply andb_true_intro; split;
        [apply Z.leb_le | apply Z.ltb_lt]; lia).
  replace (Z.to_nat (Z.of_nat (List.length r) - 1))
    with (Nat.pred (List.length r)) by lia.
  now rewrite (nth_error_last_range (0, 0) Hne).
Qed.

(** X8.  On a mounted element [handleTimeUpdate] never raises: it reads
    [buffered.end] only when a range exists, at the last index.  It copies
    [currentTime] and [duration] from the element, computes the buffered
    percentage from the end of the last range (from 0 when nothing is
    buffered), keeps every other field of the state and the element
    itself, and calls [onTimeUpdate], when one was passed, once with the
    element's [currentTime]. *)
Theorem handleTimeUpdate_reads_element onTimeUpdate env video :
  videoRef_current env = Some video ->
  handleTimeUpdate onTimeUpdate env =
    Normal (tt, mkEnv (Some video) (time_update_state video (held env))
                      (document_fullscreenElement env)
                      (effects env ++
                         if onTimeUpdate
                         then [onTimeUpdate_called
                                 (HTMLVideoElement.currentTime video)]
                         else [])).
Proof.
  intros Hv. destruct env as [ref st fs eff]. simpl in Hv. subst ref.
  unfold handleTimeUpdate, bind, current, time_update_state. simpl.
  destruct (HTMLVideoElement.buffered video) as [| a r] eqn:Hr.
  - simpl. destruct onTimeUpdate; simpl.
    + reflexivity.
    + now rewrite app_nil_r.
  - replace (TimeRanges.length (a :: r) =? 0)%Z with false
      by (symmetry; apply Z.eqb_neq; unfold TimeRanges.length; simpl; lia).
    unfold lift. rewrite TimeRanges_end_is_last by discriminate.
    destruct onTimeUpdate; simpl.
    + reflexivity.
    + now rewrite app_nil_r.
Qed.

Lemma handleTimeUpdate_reads_element_witness :
  handleTimeUpdate true
    (mounted (HTMLVideoElement.mk 30 120 [(0, 20); (25, 90)] 1 false 1)) =
    Normal (tt, mkEnv
                  (Some (HTMLVideoElement.mk 30 120 [(0, 20); (25, 90)]
                           1 false 1))
                  (VideoState.with_time 30 120 25 75 VideoState.initial)
                  false [onTimeUpdate_called 30]).
Proof.
  exact (@handleTimeUpdate_reads_element true
           (mounted (HTMLVideoElement.mk 30 120 [(0, 20); (25, 90)] 1 false 1))
           _ eq_refl).
Defined.

(** X9.  The state a time update leaves is recomputed from the element,
    not accumulated: a second time update, with the element unchanged,
    leaves the state and the element as the first one left them. *)
Theorem handleTimeUpdate_idempotent onTimeUpdate env video :
  videoRef_current env = Some video ->
  exists env1 env2,
    handleTimeUpdate onTimeUpdate env = Normal (tt, env1) /\
    handleTimeUpdate onTimeUpdate env1 = Normal (tt, env2) /\
    held env2 = held env1 /\
    videoRef_current env2 = videoRef_current env1.
Proof.
  intros Hv. do 2 eexists.
  split; [apply (handleTimeUpdate_reads_element _ _ Hv) |].
  split; [apply handleTimeUpdate_reads_element; reflexivity |].
  split; reflexivity.
Qed.

Lemma handleTimeUpdate_idempotent_witness :
  exists env1 env2,
    handleTimeUpdate false (mounted (video_of 60 120)) = Normal (tt, env1) /\
    handleTimeUpdate false env1 = Normal (tt, env2) /\
    held env2 = held env1 /\
    videoRef_current env2 = videoRef_current env1.
Proof.
  exact (@handleTimeUpdate_idempotent false (mounted (video_of 60 120)) _
           eq_refl).
Defined.

Lemma zero_fraction d :
  is_nan d = false -> (d =? 0) = false -> (0 / d * 100 =? 0) = true.
Proof.
  unfold is_nan. rewrite !eqb_spec, mul_spec, div_spec.
  unfold SF64mul, SF64div, SFeqb.
  change (Prim2SF 0) with (S754_zero false).
  destruct (Prim2SF 100) as [s| s| |s m e] eqn:E100;
    vm_compute in E100; try discriminate.
  destruct (Prim2SF d) as [sd| sd| |sd md ed]; simpl;
    try discriminate; intros _ _;
    repeat match goal with b : bool |- _ => destruct b end; reflexivity.
Qed.

(** X10.  [restartVideo] followed by the next time update: whenever the
    element's duration is a number other than 0, the state ends with
    [currentTime] 0 and a [progress] that [=== 0], and [isPlaying] is what
    it was. *)
Theorem restart_then_time_update onTimeUpdate env video :
  videoRef_current env = Some video ->
  is_nan (HTMLVideoElement.duration video) = false ->
  (HTMLVideoElement.duration video =? 0) = false ->
  exists env',
    (restartVideo ;; handleTimeUpdate onTimeUpdate) env = Normal (tt, env') /\
    VideoState.currentTime (held env') = 0 /\
    Js.strict_equals (VideoState.progress (held env')) 0 = true /\
    VideoState.isPlaying (held env') = VideoState.isPlaying (held env).
Proof.
  intros Hv Hnan Hz. destruct env as [ref st fs eff]. simpl in Hv. subst ref.
  eexists. split.
  - unfold bind at 1. unfold restartVideo, bind, current, assign, setVideoState.
    simpl. apply handleTimeUpdate_reads_element. reflexivity.
  - simpl. repeat split. now apply zero_fraction.
Qed.

Lemma restart_then_time_update_witness :
  exists env',
    (restartVideo ;; handleTimeUpdate false) (mounted (video_of 60 120)) =
      Normal (tt, env') /\
    VideoState.currentTime (held env') = 0 /\
    Js.strict_equals (VideoState.progress (held env')) 0 = true /\
    VideoState.isPlaying (held env') = false.
Proof.
  exact (@restart_then_time_update false (mounted (video_of 60 120)) _
           eq_refl eq_refl eq_refl).
Defined.

End TimeUpdates.

(** * Flags of the hook *)

Section Flags.

Open Scope float_scope.



(** X12.  Through one callback [toggleMute] sets, it does not toggle: a
    second call of the same callback assigns the same [muted] again and
    leaves the state and the element as the first call left them, with
    [isMuted] the negation of what the callback captured. *)
Theorem toggleMute_same_callback videoState env video :
  videoRef_current env = Some video ->
  exists env1 env2,
    toggleMute videoState env = Normal (tt, env1) /\
    toggleMute videoState env1 = Normal (tt, env2) /\
    held env2 = held env1 /\
    videoRef_current env2 = videoRef_current env1 /\
    VideoState.isMuted (held env2) = negb (VideoState.isMuted videoState).
Proof.
  intros Hv. destruct env as [ref st fs eff]. simpl in Hv. subst ref.
  unfold toggleMute, bind, current, assign, setVideoState. simpl.
  do 2 eexists. repeat split.
Qed.

Lemma toggleMute_same_callback_witness :
  exists env1 env2,
    toggleMute VideoState.initial (mounted (video_of 0 120)) =
      Normal (tt, env1) /\
    toggleMute VideoState.initial env1 = Normal (tt, env2) /\
    held env2 = held env1 /\
    videoRef_current env2 = videoRef_current env1 /\
    VideoState.isMuted (held env2) = negb false.
Proof.
  exact (@toggleMute_same_callback VideoState.initial
           (mounted (video_of 0 120)) _ eq_refl).
Defined.

(** X13.  The hook's [toggleFullscreen] takes its flag from the document,
    not from its own state: on a mounted element, whatever [isFullscreen]
    was, it ends as the negation of [document.fullscreenElement], one
    request is issued ([requestFullscreen] on the element when the
    document was not in fullscreen, [exitFullscreen] on the document
    otherwise), and the element and the other fields are left alone. *)
Theorem toggleFullscreen_follows_document env video :
  videoRef_current env = Some video ->
  exists env',
    toggleFullscreen env = Normal (tt, env') /\
    held env' =
      VideoState.with_isFullscreen (negb (document_fullscreenElement env))
        (held env) /\
    effects env' =
      effects env ++
        [if document_fullscreenElement env
         then document_exitFullscreen else video_requestFullscreen] /\
    videoRef_current env' = Some video /\
    document_fullscreenElement env' = document_fullscreenElement env.
Proof.
  intros Hv. destruct env as [ref st [] eff]; simpl in Hv; subst ref;
    eexists; repeat split.
Qed.

Lemma toggleFullscreen_follows_document_witness :
  exists env',
    toggleFullscreen (mounted (video_of 0 120)) = Normal (tt, env') /\
    held env' = VideoState.with_isFullscreen (negb false) VideoState.initial /\
    effects env' = [] ++ [video_requestFullscreen] /\
    videoRef_current env' = Some (video_of 0 120) /\
    document_fullscreenElement env' = false.
Proof.
  exact (@toggleFullscreen_follows_document (mounted (video_of 0 120)) _
           eq_refl).
Defined.

Lemma togglePlayPause_rendered_between_witness :
  (latest togglePlayPause ;; latest togglePlayPause)
    (mounted (video_of 0 120)) =
    Normal (tt, mkEnv (Some (video_of 0 120)) VideoState.initial false
                      [video_play; video_pause]).
Proof.
  exact (@togglePlayPause_rendered_between (mounted (video_of 0 120)) _
           eq_refl).
Defined.

End Flags.

(** * The time label *)

Section Clock.

Open Scope Z_scope.

Lemma civil_year_four_digits day :
  0 <= day <= 2932896 ->
  1970 <= fst (fst (Date.civil day)) <= 9999.
Proof.
  intros H. cbv beta iota zeta delta [Date.civil fst].
  set (z := day + 719468).
  set (era := z / 146097).
  set (doe := z - era * 146097).
  set (yoe := (doe - doe / 1460 + doe / 36524 - doe / 146096) / 365).
  set (doy := doe - (365 * yoe + yoe / 4 - yoe / 100)).
  set (mp := (5 * doy + 2) / 153).
  assert (Hera : 4 <= era <= 24) by (subst era z; Z.div_mod_to_equations; lia).
  assert (Hdoe : 0 <= doe <= 146096) by (subst doe era; Z.div_mod_to_equations; lia).
  assert (Hyoe : 0 <= yoe <= 399) by (subst yoe; Z.div_mod_to_equations; lia).
  assert (Hdoy : 0 <= doy <= 365).
  { subst doy yoe. Z.div_mod_to_equations. lia. }
  assert (Hmp : 0 <= mp <= 11) by (subst mp; Z.div_mod_to_equations; lia).
  assert (Hcarry : mp < 10 <-> doy < 306) by (subst mp; Z.div_mod_to_equations; lia).
  assert (Hlow : era = 4 -> yoe = 369 /\ 306 <= doy \/ 370 <= yoe).
  { intros He. subst doy yoe doe z. rewrite He in *. Z.div_mod_to_equations. lia. }
  assert (Hhigh : era = 24 -> yoe = 399 -> doy < 306).
  { intros He Hy. subst doy. rewrite Hy in *. subst yoe doe z. rewrite He in *.
    Z.div_mod_to_equations. lia. }
  clearbody mp doy yoe doe era z.
  destruct (mp <? 10) eqn:Hp;
    [apply Z.ltb_lt in Hp | apply Z.ltb_ge in Hp]; cbv iota;
    match goal with |- context [?a <=? 2] => destruct (Z.leb_spec a 2) end;
    cbv iota; lia.
Qed.

End Clock.

Section Text.

Open Scope string_scope.

Lemma length_append (a b : string) :
  String.length (a ++ b) = (String.length a + String.length b)%nat.
Proof. induction a as [| c a IH]; simpl; [reflexivity | now rewrite IH]. Qed.

Lemma length_pad width n : String.length (Date.pad width n) = width.
Proof.
  revert n. induction width as [| w IH]; intros n; simpl; [reflexivity |].
  rewrite length_append, IH. simpl. lia.
Qed.

Lemma substring_skip (a b : string) m :
  substring (String.length a) m (a ++ b) = substring 0 m b.
Proof. induction a as [| c a IH]; simpl; [reflexivity | exact IH]. Qed.

Lemma substring_prefix (a b : string) :
  substring 0 (String.length a) (a ++ b) = a.
Proof.
  induction a as [| c a IH]; simpl.
  - destruct b; reflexivity.
  - now rewrite IH.
Qed.

Lemma append_assoc (a b c : string) : (a ++ b) ++ c = a ++ (b ++ c).
Proof. induction a as [| x a IH]; simpl; [reflexivity | now rewrite IH]. Qed.

Lemma length_clock t : String.length (Date.clock t) = 8%nat.
Proof.
  unfold Date.clock. rewrite !length_append, !length_pad. reflexivity.
Qed.

End Text.

Section Format.

Open Scope Z_scope.

(** Between the epoch and the end of year 9999 the text is the time of
    day. *)
Lemma toISOString_clock tv :
  0 <= tv < 253402300800000 ->
  substring 11 8 (Date.toISOString tv) = Date.clock (tv mod 86400000).
Proof.
  intros H. unfold Date.toISOString.
  assert (Hday : 0 <= tv / 86400000 <= 2932896)
    by (Z.div_mod_to_equations; lia).
  pose proof (civil_year_four_digits Hday) as Hy.
  destruct (Date.civil (tv / 86400000)) as [[y m] d]. simpl in Hy.
  unfold Date.year_text.
  replace ((0 <=? y) && (y <=? 9999)) with true
    by (symmetry; apply andb_true_intro; split; apply Z.leb_le; lia).
  set (t := tv mod 86400000).
  set (date := (Date.pad 4 y ++ "-" ++ Date.pad 2 m ++ "-" ++ Date.pad 2 d
                  ++ "T")%string).
  set (rest := ("." ++ Date.pad 3 (t mod 1000) ++ "Z")%string).
  replace (Date.pad 4 y ++ "-" ++ Date.pad 2 m ++ "-" ++ Date.pad 2 d ++ "T"
             ++ Date.clock t ++ rest)%string
    with (date ++ Date.clock t ++ rest)%string
    by (unfold date; now rewrite !append_assoc).
  assert (Hlen : String.length date = 11%nat)
    by (unfold date; rewrite !length_append, !length_pad; reflexivity).
  rewrite <- Hlen at 1. rewrite substring_skip.
  rewrite <- (length_clock t). apply substring_prefix.
Qed.

End Format.

Section Label.

Open Scope float_scope.

(** X15.  For a time whose milliseconds [tv] lie between the epoch and the
    end of year 9999, [format] gives [HH:mm:ss] of the time of day
    [tv mod 86400000]: the hours are counted modulo 24, so a position of
    25 hours is shown as [01:00:00]. *)
Theorem format_is_time_of_day time tv :
  Date.TimeClip (time * 1000) = Some tv ->
  (0 <= tv < 253402300800000)%Z ->
  format time = Some (Date.clock (tv mod 86400000)) /\
  (0 <= (tv mod 86400000) / 3600000 < 24)%Z.
Proof.
  intros Hclip Hrange. unfold format. rewrite Hclip. split.
  - f_equal. now apply toISOString_clock.
  - Z.div_mod_to_equations. lia.
Qed.

Lemma format_is_time_of_day_witness :
  format 90000 = Some "01:00:00"%string /\
  (0 <= (90000000 mod 86400000) / 3600000 < 24)%Z.
Proof.
  apply (@format_is_time_of_day 90000 90000000%Z); [reflexivity | lia].
Defined.

Lemma not_finite_cases x :
  is_finite x = false -> x = nan \/ x = infinity \/ x = neg_infinity.
Proof.
  unfold is_finite. intros H. apply negb_false_iff, orb_prop in H.
  destruct H as [H | H].
  - left. now apply is_nan_true.
  - right. unfold is_infinity in H.
    rewrite eqb_spec, abs_spec in H. unfold SFeqb in H.
    change (Prim2SF infinity) with (S754_infinity false) in H.
    destruct (Prim2SF x) as [s| s| |s m e] eqn:E; simpl in H;
      try discriminate.
    destruct s; [right | left]; apply Prim2SF_inj; rewrite E; reflexivity.
Qed.

Lemma format_not_finite x : is_finite x = false -> format x = None.
Proof.
  intros H.
  destruct (not_finite_cases x H) as [-> | [-> | ->]]; reflexivity.
Qed.

Lemma truncate_finite x :
  is_finite x = true -> exists z, Date.truncate x = Some z.
Proof.
  unfold is_finite, is_nan, is_infinity, Date.truncate.
  rewrite !eqb_spec, abs_spec. unfold SFeqb.
  change (Prim2SF infinity) with (S754_infinity false).
  destruct (Prim2SF x) as [s| s| |s m e]; try destruct s; simpl; intros H;
    try discriminate; eexists; reflexivity.
Qed.

(** X16.  [format] raises its [RangeError] exactly when [time * 1000] is
    not finite or lies more than 8.64e15 from 0; on every other time it
    returns a text. *)
Theorem format_raises_iff time :
  format time = None <->
  is_finite (time * 1000) = false \/
  (8.64e15 <? abs (time * 1000)) = true.
Proof.
  unfold format, Date.TimeClip.
  destruct (is_finite (time * 1000)) eqn:F; simpl.
  - destruct (8.64e15 <? abs (time * 1000)) eqn:R.
    + split; [now right | reflexivity].
    + destruct (truncate_finite _ F) as [z ->].
      split; [discriminate | intros [H | H]; discriminate].
  - split; [now left | reflexivity].
Qed.

(** X17.  A time update on an element whose duration is not finite
    ([NaN] before the metadata has loaded, [Infinity] for a stream
    without end) stores that duration, and the state it leaves cannot be
    labelled: [formattedTime] raises [RangeError]. *)
Theorem time_update_unlabelled onTimeUpdate env video :
  videoRef_current env = Some video ->
  is_finite (HTMLVideoElement.duration video) = false ->
  exists env',
    handleTimeUpdate onTimeUpdate env = Normal (tt, env') /\
    VideoState.duration (held env') = HTMLVideoElement.duration video /\
    formattedTime (held env') = None.
Proof.
  intros Hv Hd. eexists.
  split; [apply (handleTimeUpdate_reads_element _ _ Hv) |].
  split; [reflexivity |].
  unfold formattedTime. simpl. rewrite (format_not_finite _ Hd).
  now destruct (format (HTMLVideoElement.currentTime video)).
Qed.

Lemma time_update_unlabelled_witness :
  exists env',
    handleTimeUpdate false (mounted (video_of 0 infinity)) =
      Normal (tt, env') /\
    VideoState.duration (held env') = infinity /\
    formattedTime (held env') = None.
Proof.
  exact (@time_update_unlabelled false (mounted (video_of 0 infinity)) _
           eq_refl eq_refl).
Defined.

(** Before any time update both times are 0 and the label reads as
    follows. *)
Example formattedTime_initial :
  formattedTime VideoState.initial = Some "00:00:00 / 00:00:00"%string.
Proof. reflexivity. Qed.

End Label.
